(** * Vault contract tooling: deployment script and test constants

    A shallow embedding of [scripts/deploy_address_provider.py] and
    [tests/utils/constants.py], with the properties their specification
    states about them.

    Python values are modelled as follows: [int] as [Z], [bytes] and
    [HexBytes] as [list byte], [str] as [string] (one character per code
    point below 256; every literal of the two files is ASCII), [IntFlag]
    classes as enumerated types with a [value] function. *)

From Stdlib Require Import ZArith List String Ascii Strings.Byte Bool Lia.
From Stdlib Require Import DecimalString.
Import ListNotations.
Open Scope Z_scope.

(* ===================================================================== *)
(** ** Bytes, hexadecimal text and UTF-8 *)
(* ===================================================================== *)

Module Bytes.

Definition bytes := list byte.

Definition Z_of_byte (b : byte) : Z := Z.of_N (Byte.to_N b).

(** The byte holding the low eight bits of [z]. *)
Definition byte_of_Z (z : Z) : byte :=
  match Byte.of_N (Z.to_N (z mod 256)) with
  | Some b => b
  | None => x00
  end.

(** Big-endian value of a byte string, [int.from_bytes(l, "big")]. *)
Definition be_value (l : bytes) : Z :=
  fold_left (fun acc b => acc * 256 + Z_of_byte b) l 0.

(** The [n] low bytes of [z], most significant first. *)
Fixpoint be_bytes (n : nat) (z : Z) : bytes :=
  match n with
  | O => []
  | S k => byte_of_Z (Z.shiftr z (8 * Z.of_nat k)) :: be_bytes k z
  end.

(** Lower-case hexadecimal digit of a value below 16. *)
Definition hex_digit (d : Z) : ascii :=
  if d <? 10 then ascii_of_N (Z.to_N (48 + d))
  else ascii_of_N (Z.to_N (87 + d)).

(** Value of a hexadecimal digit; both letter cases are accepted, as by
    [int(s, 16)] and by [binascii.unhexlify]. *)
Definition hex_value (c : ascii) : option Z :=
  let n := Z.of_N (N_of_ascii c) in
  if (48 <=? n) && (n <=? 57) then Some (n - 48)
  else if (97 <=? n) && (n <=? 102) then Some (n - 87)
  else if (65 <=? n) && (n <=? 70) then Some (n - 55)
  else None.

(** [bytes.hex()]: two lower-case digits per byte, no prefix. *)
Fixpoint hex (l : bytes) : string :=
  match l with
  | [] => EmptyString
  | b :: r =>
      String (hex_digit (Z_of_byte b / 16))
        (String (hex_digit (Z_of_byte b mod 16)) (hex r))
  end.

(** [str.encode("utf-8")] on code points below 256: one byte below 128,
    two bytes from 128 on. *)
Fixpoint encode_utf8 (s : string) : bytes :=
  match s with
  | EmptyString => []
  | String c r =>
      let n := Z.of_N (N_of_ascii c) in
      if n <? 128 then byte_of_Z n :: encode_utf8 r
      else byte_of_Z (Z.lor 192 (Z.shiftr n 6))
             :: byte_of_Z (Z.lor 128 (Z.land n 63)) :: encode_utf8 r
  end.

End Bytes.

(* ===================================================================== *)
(** ** SHA-256 (FIPS 180-4), as computed by [hashlib.sha256] *)
(* ===================================================================== *)

Module SHA256.
Import Bytes.

Definition w32 (x : Z) : Z := x mod 2 ^ 32.

Definition rotr (n x : Z) : Z :=
  Z.lor (Z.shiftr x n) (w32 (Z.shiftl x (32 - n))).

Definition Ch (x y z : Z) : Z :=
  Z.lxor (Z.land x y) (Z.land (Z.lnot x) z).

Definition Maj (x y z : Z) : Z :=
  Z.lxor (Z.lxor (Z.land x y) (Z.land x z)) (Z.land y z).

Definition Sigma0 (x : Z) : Z :=
  Z.lxor (Z.lxor (rotr 2 x) (rotr 13 x)) (rotr 22 x).

Definition Sigma1 (x : Z) : Z :=
  Z.lxor (Z.lxor (rotr 6 x) (rotr 11 x)) (rotr 25 x).

Definition sigma0 (x : Z) : Z :=
  Z.lxor (Z.lxor (rotr 7 x) (rotr 18 x)) (Z.shiftr x 3).

Definition sigma1 (x : Z) : Z :=
  Z.lxor (Z.lxor (rotr 17 x) (rotr 19 x)) (Z.shiftr x 10).

(** The first sixty-four primes. *)
Definition primes : list Z :=
  [2; 3; 5; 7; 11; 13; 17; 19; 23; 29; 31; 37; 41; 43; 47; 53;
   59; 61; 67; 71; 73; 79; 83; 89; 97; 101; 103; 107; 109; 113; 127; 131;
   137; 139; 149; 151; 157; 163; 167; 173; 179; 181; 191; 193; 197; 199;
   211; 223; 227; 229; 233; 239; 241; 251; 257; 263; 269; 271; 277; 281;
   283; 293; 307; 311].

(** Integer cube root, one result bit per step from bit [k - 1] down. *)
Fixpoint cbrt_bits (k : nat) (n r : Z) : Z :=
  match k with
  | O => r
  | S j =>
      let c := r + 2 ^ Z.of_nat j in
      if c * c * c <=? n then cbrt_bits j n c else cbrt_bits j n r
  end.

(** Round constants: the first 32 bits of the fractional parts of the
    cube roots of the first sixty-four primes. *)
Definition K : list Z :=
  Eval vm_compute in map (fun p => w32 (cbrt_bits 36 (p * 2 ^ 96) 0)) primes.

(** Initial hash value: the first 32 bits of the fractional parts of the
    square roots of the first eight primes. *)
Definition H0 : list Z :=
  Eval vm_compute in map (fun p => w32 (Z.sqrt (p * 2 ^ 64))) (firstn 8 primes).

(** The sixteen big-endian words of a 64-byte block. *)
Fixpoint words_of (n : nat) (l : bytes) : list Z :=
  match n with
  | O => []
  | S k => be_value (firstn 4 l) :: words_of k (skipn 4 l)
  end.

(** Message schedule: [n] more words appended to [W]. *)
Fixpoint extend (n : nat) (W : list Z) : list Z :=
  match n with
  | O => W
  | S k =>
      let t := List.length W in
      let w := w32 (sigma1 (nth (t - 2) W 0) + nth (t - 7) W 0
                    + sigma0 (nth (t - 15) W 0) + nth (t - 16) W 0) in
      extend k (W ++ [w])
  end.

Definition schedule (block : bytes) : list Z := extend 48 (words_of 16 block).

(** The eight working variables [a .. h]. *)
Record vars := Vars { va : Z; vb : Z; vc : Z; vd : Z;
                      ve : Z; vf : Z; vg : Z; vh : Z }.

Definition vars_of (h : list Z) : vars :=
  Vars (nth 0 h 0) (nth 1 h 0) (nth 2 h 0) (nth 3 h 0)
       (nth 4 h 0) (nth 5 h 0) (nth 6 h 0) (nth 7 h 0).

Definition round (v : vars) (kw : Z * Z) : vars :=
  let T1 := w32 (vh v + Sigma1 (ve v) + Ch (ve v) (vf v) (vg v)
                 + fst kw + snd kw) in
  let T2 := w32 (Sigma0 (va v) + Maj (va v) (vb v) (vc v)) in
  Vars (w32 (T1 + T2)) (va v) (vb v) (vc v)
       (w32 (vd v + T1)) (ve v) (vf v) (vg v).

(** One application of the compression function to a 64-byte block. *)
Definition compress (h : vars) (block : bytes) : vars :=
  let v := fold_left round (combine K (schedule block)) h in
  Vars (w32 (va h + va v)) (w32 (vb h + vb v))
       (w32 (vc h + vc v)) (w32 (vd h + vd v))
       (w32 (ve h + ve v)) (w32 (vf h + vf v))
       (w32 (vg h + vg v)) (w32 (vh h + vh v)).

(** A hash object: chaining value, bytes not yet compressed, and the
    number of message bytes received. *)
Record hash_object := HashObject { chain : vars; pending : bytes; count : Z }.

(** [hashlib.sha256()] *)
Definition new : hash_object := HashObject (vars_of H0) [] 0.

Definition absorb (st : vars * bytes) (b : byte) : vars * bytes :=
  let buf := snd st ++ [b] in
  if (List.length buf =? 64)%nat then (compress (fst st) buf, [])
  else (fst st, buf).

(** [hash_object.update(data)] *)
Definition update (o : hash_object) (data : bytes) : hash_object :=
  let st := fold_left absorb data (chain o, pending o) in
  HashObject (fst st) (snd st) (count o + Z.of_nat (List.length data)).

(** Padding: a one bit, zeros up to 56 modulo 64, the bit length on 64
    bits. *)
Definition padding (n : Z) : bytes :=
  x80 :: repeat x00 (Z.to_nat ((55 - n) mod 64)) ++ be_bytes 8 (8 * n).

(** [hash_object.digest()] *)
Definition digest (o : hash_object) : bytes :=
  let v := fst (fold_left absorb (padding (count o)) (chain o, pending o)) in
  be_bytes 4 (va v) ++ be_bytes 4 (vb v) ++ be_bytes 4 (vc v)
    ++ be_bytes 4 (vd v) ++ be_bytes 4 (ve v) ++ be_bytes 4 (vf v)
    ++ be_bytes 4 (vg v) ++ be_bytes 4 (vh v).

(** [hash_object.hexdigest()] *)
Definition hexdigest (o : hash_object) : string := hex (digest o).

End SHA256.

(* ===================================================================== *)
(** ** Python builtins and [hexbytes.HexBytes] *)
(* ===================================================================== *)

Module Py.
Import Bytes.

(** A raised exception: its class and its message. *)
Inductive exn := Exn (class message : string).

(** Outcome of evaluating an expression or running a function. *)
Inductive result (A : Type) :=
| Returned (a : A)
| Raised (e : exn).
Arguments Returned {A} a.
Arguments Raised {A} e.

(** [str(n)] for an [int]. *)
Definition str (n : Z) : string := NilZero.string_of_int (Z.to_int n).

Fixpoint digits16 (s : string) (acc : Z) : option Z :=
  match s with
  | EmptyString => Some acc
  | String c r =>
      match hex_value c with
      | Some d => digits16 r (acc * 16 + d)
      | None => None
      end
  end.

(** [int(s, 16)] on a string of hexadecimal digits, which is what
    [hexdigest] produces; [None] stands for [ValueError]. The sign, the
    [0x] prefix, the underscores and the surrounding blanks that [int] also
    accepts are not modelled. *)
Definition int16 (s : string) : option Z :=
  match s with
  | EmptyString => None
  | _ => digits16 s 0
  end.

(** [s[n:]] *)
Fixpoint slice_from (n : nat) (s : string) : string :=
  match n, s with
  | O, _ => s
  | S k, EmptyString => EmptyString
  | S k, String _ r => slice_from k r
  end.

End Py.

Module HexBytes.
Import Bytes.

Fixpoint unhexlify (s : string) : option bytes :=
  match s with
  | EmptyString => Some []
  | String _ EmptyString => None
  | String c1 (String c2 r) =>
      match hex_value c1, hex_value c2, unhexlify r with
      | Some h, Some l, Some t => Some (byte_of_Z (16 * h + l) :: t)
      | _, _, _ => None
      end
  end.

Definition has_0x_prefix (s : string) : bool :=
  match s with
  | String "0" (String c _) => Ascii.eqb c "x" || Ascii.eqb c "X"
  | _ => false
  end.

(** [HexBytes(s)] for a [str]: an optional [0x] prefix is dropped, an odd
    number of digits is padded with a leading zero, and the digits are read
    in pairs; [None] stands for the error raised on anything else. *)
Definition of_str (s : string) : option bytes :=
  let non_prefixed := if has_0x_prefix s then Py.slice_from 2 s else s in
  let padded :=
    if Nat.odd (String.length s) then String "0" non_prefixed
    else non_prefixed in
  unhexlify padded.

(** The digits that [of_str] reads in pairs. *)
Definition padded (s : string) : string :=
  let non_prefixed := if has_0x_prefix s then Py.slice_from 2 s else s in
  if Nat.odd (String.length s) then String "0" non_prefixed
  else non_prefixed.

Definition is_ascii (c : ascii) : bool := (N_of_ascii c <? 128)%N.

(** How many characters outside ASCII the text starts with. *)
Fixpoint non_ascii_run (s : string) : nat :=
  match s with
  | EmptyString => O
  | String c r => if is_ascii c then O else S (non_ascii_run r)
  end.

(** The first character outside ASCII: its position, counted from [i],
    the character, and the length of the run it starts. *)
Fixpoint find_non_ascii (s : string) (i : nat) : option (nat * ascii * nat) :=
  match s with
  | EmptyString => None
  | String c r =>
      if is_ascii c then find_non_ascii r (S i)
      else Some (i, c, non_ascii_run s)
  end.

(** The exception of [HexBytes(s)] when the text is not read. The digits
    are first encoded as ASCII, which raises UnicodeEncodeError on the
    first run of characters outside ASCII; [binascii.unhexlify] then
    raises its own error on a character that is not a digit. The text has
    an even length by then. *)
Definition error (s : string) : Py.exn :=
  match find_non_ascii (padded s) 0 with
  | Some (i, c, n) =>
      let code := Z.of_N (N_of_ascii c) in
      Py.Exn "UnicodeEncodeError"
        (if (n =? 1)%nat then
           "'ascii' codec can't encode character '\x"
           ++ String (hex_digit (code / 16))
                (String (hex_digit (code mod 16)) "")
           ++ "' in position " ++ Py.str (Z.of_nat i)
           ++ ": ordinal not in range(128)"
         else
           "'ascii' codec can't encode characters in position "
           ++ Py.str (Z.of_nat i) ++ "-" ++ Py.str (Z.of_nat (i + n - 1))
           ++ ": ordinal not in range(128)")
  | None => Py.Exn "binascii.Error" "Non-hexadecimal digit found"
  end.

(** [HexBytes(b)] for a [bytes] value keeps the bytes. *)
Definition of_bytes (b : bytes) : bytes := b.

(** [HexBytes.hex()]: the digits behind a [0x] prefix. *)
Definition to_hex (b : bytes) : string := String "0" (String "x" (hex b)).

End HexBytes.

(* ===================================================================== *)
(** ** scripts/deploy_address_provider.py *)
(* ===================================================================== *)

Module Script.
Import Bytes Py.

(** *** The framework objects the script handles *)

Record Account := { alias : string }.

(** [project.<Name>]: a compiled contract, with the hexadecimal text of
    [contract_type.deployment_bytecode.bytecode]. *)
Record ContractContainer :=
  { contract_name : string; deployment_bytecode : string }.

(** A contract at an address, as returned by [container.at(address)]. *)
Record ContractInstance :=
  { container : ContractContainer; address : string }.

Record Receipt := { txn_hash : string }.

(** A decoded [Deployed] log; [addr] is its only argument. *)
Record ContractLog := { addr : string }.

(** An argument of [print]. The quotient [n / d] of [PQuot] is a float;
    its digits are not computed. *)
Inductive printed :=
| PStr (s : string)
| PInt (n : Z)
| PQuot (n d : Z).

(** What the script does to its surroundings, in order. *)
Inductive event :=
| Print (args : list printed)
| Input (prompt : string)
| ChainId
| ProjectGet (name : string)
| At (c : ContractContainer) (address : string)
| Balance (a : Account)
| EncodeInput (c : ContractContainer) (arg : string)
| Deploy (factory : ContractInstance) (payload : bytes) (salt : Z)
         (sender : Account)
| DecodeLogs (tx : Receipt) (factory : ContractInstance) (event_name : string).

(** The surroundings: the answer of the console, of the chain and of the
    contract-interaction layer to each request. Every request of the script
    is made at most once, so a function of the request is as general as a
    surrounding with state. *)
Record World := {
  chain_id : result Z;
  input : string -> result string;
  project : string -> result ContractContainer;
  at_ : ContractContainer -> string -> result ContractInstance;
  balance : Account -> result Z;
  encode_input : ContractContainer -> string -> result bytes;
  deploy : ContractInstance -> bytes -> Z -> Account -> result Receipt;
  decode_logs : Receipt -> ContractInstance -> string -> result (list ContractLog)
}.

(** *** Running: the events so far and the outcome *)

Definition M (A : Type) : Type := list event -> list event * result A.

Definition ret {A} (a : A) : M A := fun t => (t, Returned a).

Definition raise {A} (e : exn) : M A := fun t => (t, Raised e).

(** Sequencing. An exception ends the run where it is raised: there is no
    operation that catches one. *)
Definition bind {A B} (m : M A) (k : A -> M B) : M B :=
  fun t =>
    match m t with
    | (t', Returned a) => k a t'
    | (t', Raised e) => (t', Raised e)
    end.

Notation "x <- m ;; k" := (bind m (fun x => k))
  (at level 61, m at next level, right associativity).
Notation "m ;; k" := (bind m (fun _ => k))
  (at level 61, right associativity).

(** A request to the surroundings and its answer. *)
Definition call {A} (e : event) (r : result A) : M A :=
  fun t => (t ++ [e], r).

Definition print (args : list printed) : M unit :=
  fun t => (t ++ [Print args], Returned tt).

Definition or_raise {A} (o : option A) (e : exn) : M A :=
  match o with
  | Some a => ret a
  | None => raise e
  end.

(** A run from the start: the events and the outcome. *)
Definition run {A} (m : M A) : list event * result A := m [].

Definition ValueError := Exn "ValueError".
Definition IndexError := Exn "IndexError".
Definition OverflowError := Exn "OverflowError".

(** The least magnitude of an [int] that has no float: halfway between the
    largest float, [2 ^ 1024 - 2 ^ 971], and [2 ^ 1024], from where the
    conversion rounds up. *)
Definition float_limit : Z := 2 ^ 1024 - 2 ^ 970.

(** [n / d] for an [int] and a float literal [d] that is not zero: the
    [int] is converted to a float first, which raises OverflowError from
    [float_limit] on. *)
Definition true_divide (n d : Z) : M printed :=
  if Z.abs n <? float_limit then ret (PQuot n d)
  else raise (OverflowError "int too large to convert to float").

(** [l[0]] *)
Definition first {A} (l : list A) : M A :=
  or_raise (hd_error l) (IndexError "list index out of range").

(** *** The script *)

Definition factory_address : string :=
  "0x8D85e7c9A4e369E53Acc8d5426aE1568198b0112".

Definition constructor_argument : string :=
  "0x33333333D5eFb92f19a5F94a43456b3cec2797AE".

Definition prompt : string := "Do you want to continue? ".

Definition rule : string := "------------------".

(** [deployer] is the account that the module loads when it is imported,
    [accounts.load("")]; the function reads it as a global. *)
Definition deploy_address_provider (w : World) (deployer : Account) : M unit :=
  id <- call ChainId (chain_id w) ;;
  print [PStr "Deploying Address Provider on ChainID"; PInt id] ;;
  answer <- call (Input prompt) (input w prompt) ;;
  if String.eqb answer "n" then ret tt else
  address_provider <-
    call (ProjectGet "AddressProvider") (project w "AddressProvider") ;;
  Deployer <- call (ProjectGet "Deployer") (project w "Deployer") ;;
  deployer_contract <-
    call (At Deployer factory_address) (at_ w Deployer factory_address) ;;
  let salt_string := "address provider"%string in
  let hash_object := SHA256.new in
  let hash_object := SHA256.update hash_object (encode_utf8 salt_string) in
  let hex_hash := SHA256.hexdigest hash_object in
  salt <-
    or_raise (int16 hex_hash)
      (ValueError
         ("invalid literal for int() with base 16: '" ++ hex_hash ++ "'")) ;;
  print [PStr ("Salt we are using " ++ str salt)] ;;
  wei <- call (Balance deployer) (balance w deployer) ;;
  quotient <- true_divide wei (10 ^ 18) ;;
  print [PStr "Init balance:"; quotient] ;;
  constructor <-
    call (EncodeInput address_provider constructor_argument)
         (encode_input w address_provider constructor_argument) ;;
  bytecode <-
    or_raise (HexBytes.of_str (deployment_bytecode address_provider))
             (HexBytes.error (deployment_bytecode address_provider)) ;;
  let deploy_bytecode := HexBytes.of_bytes (bytecode ++ constructor) in
  print [PStr "Deploying Address Provider..."] ;;
  tx <-
    call (Deploy deployer_contract deploy_bytecode salt deployer)
         (deploy w deployer_contract deploy_bytecode salt deployer) ;;
  event <-
    call (DecodeLogs tx deployer_contract "Deployed")
         (decode_logs w tx deployer_contract "Deployed") ;;
  e0 <- first event ;;
  let address := addr e0 in
  print [PStr rule] ;;
  print [PStr ("Deployed the address provider to " ++ address)] ;;
  print [PStr rule] ;;
  print [PStr ("Encoded Constructor to use for verifaction "
                 ++ slice_from 2 (HexBytes.to_hex constructor))].

Definition main (w : World) (deployer : Account) : M unit :=
  deploy_address_provider w deployer.

(** *** Observations on a run *)

Definition is_deploy (e : event) : bool :=
  match e with
  | Deploy _ _ _ _ => true
  | _ => false
  end.

(** How many times the factory's [deploy] was called. *)
Definition submissions (t : list event) : nat :=
  List.length (filter is_deploy t).

(** Whether the factory's [deploy] was called. *)
Definition submitted (t : list event) : bool := existsb is_deploy t.

(** The exception the surroundings raise on a request, if any. *)
Definition raised_on (w : World) (e : event) : option exn :=
  let failure {A} (r : result A) :=
    match r with
    | Raised x => Some x
    | Returned _ => None
    end in
  match e with
  | Print _ => None
  | Input p => failure (input w p)
  | ChainId => failure (chain_id w)
  | ProjectGet n => failure (project w n)
  | At c a => failure (at_ w c a)
  | Balance a => failure (balance w a)
  | EncodeInput c a => failure (encode_input w c a)
  | Deploy f p s a => failure (deploy w f p s a)
  | DecodeLogs tx f n => failure (decode_logs w tx f n)
  end.

(** Every step before the factory call goes through: both contracts are
    found, the balance is read and has a float, the constructor argument
    is encoded and the bytecode is hexadecimal. *)
Definition prepared (w : World) (deployer : Account) : bool :=
  match project w "AddressProvider", project w "Deployer" with
  | Returned address_provider, Returned Deployer =>
      match at_ w Deployer factory_address, balance w deployer,
            encode_input w address_provider constructor_argument,
            HexBytes.of_str (deployment_bytecode address_provider) with
      | Returned _, Returned wei, Returned _, Some _ =>
          Z.abs wei <? float_limit
      | _, _, _, _ => false
      end
  | _, _ => false
  end.

(** A surrounding in which the script runs to the end. *)
Definition demo_log : ContractLog :=
  {| addr := "0x5FbDB2315678afecb367f032d93F642f64180aa3" |}.

Definition demo_world (answer : string) : World := {|
  chain_id := Returned 1;
  input := fun _ => Returned answer;
  project := fun n =>
    Returned {| contract_name := n; deployment_bytecode := "0x6080604052" |};
  at_ := fun c a => Returned {| container := c; address := a |};
  balance := fun _ => Returned (3 * 10 ^ 18);
  encode_input := fun _ _ => Returned (repeat x00 12 ++ repeat x33 4);
  deploy := fun _ _ _ _ => Returned {| txn_hash := "0xabc" |};
  decode_logs := fun _ _ _ => Returned [demo_log]
|}.

(** The same, with a factory call that raises. *)
Definition reverting_world (e : exn) : World := {|
  chain_id := chain_id (demo_world "y");
  input := input (demo_world "y");
  project := project (demo_world "y");
  at_ := at_ (demo_world "y");
  balance := balance (demo_world "y");
  encode_input := encode_input (demo_world "y");
  deploy := fun _ _ _ _ => Raised e;
  decode_logs := decode_logs (demo_world "y")
|}.

Definition demo_deployer : Account := {| alias := "" |}.

Definition demo_revert : exn := Exn "ContractLogicError" "Transaction failed.".

(** The requests to the surroundings: every event but a printed line. *)
Definition is_request (e : event) : bool :=
  match e with
  | Print _ => false
  | _ => true
  end.

(** The same as [demo_world], with a receipt in which no [Deployed] log is
    found. *)
Definition silent_world : World := {|
  chain_id := chain_id (demo_world "y");
  input := input (demo_world "y");
  project := project (demo_world "y");
  at_ := at_ (demo_world "y");
  balance := balance (demo_world "y");
  encode_input := encode_input (demo_world "y");
  deploy := deploy (demo_world "y");
  decode_logs := fun _ _ _ => Returned []
|}.

(** The same as [demo_world] with the answer "yes", and a node that does
    not answer when the balance is read. *)
Definition offline : exn := Exn "ProviderNotConnectedError" "Not connected.".

Definition offline_world : World := {|
  chain_id := chain_id (demo_world "yes");
  input := input (demo_world "yes");
  project := project (demo_world "yes");
  at_ := at_ (demo_world "yes");
  balance := fun _ => Raised offline;
  encode_input := encode_input (demo_world "yes");
  deploy := deploy (demo_world "yes");
  decode_logs := decode_logs (demo_world "yes")
|}.



Definition demo_factory : ContractInstance :=
  {| container :=
       {| contract_name := "Deployer"; deployment_bytecode := "0x6080604052" |};
     address := factory_address |}.

Definition demo_payload : bytes :=
  [x60; x80; x60; x40; x52] ++ repeat x00 12 ++ repeat x33 4.

(** The integer that the script derives from its salt string, written
    out. *)
Definition expected_salt : Z :=
  13476920997752793447469330185897242238273528329391868269948580729240597053374.

End Script.

(* ===================================================================== *)
(** ** tests/utils/constants.py *)
(* ===================================================================== *)

Module Constants.
Import Bytes.

Definition DAY : Z := 86400.
Definition WEEK : Z := 7 * DAY.
Definition YEAR : Z := 31556952.
Definition MAX_INT : Z := 2 ^ 256 - 1.
Definition ZERO_ADDRESS : string := "0x0000000000000000000000000000000000000000".
Definition MAX_BPS : Z := 10000.

(** The header of a class statement: its name and its base classes. *)
Record class_header := { class_name : string; bases : list string }.

(** A class statement: the header and the names bound in the body, each
    with its value, in the order of the source. *)
Record class_statement :=
  { header_of : class_header; body_of : list (string * Z) }.

Module ROLES.

Definition header : class_header :=
  {| class_name := "ROLES"; bases := ["IntFlag"%string] |}.

Inductive t :=
| ADD_STRATEGY_MANAGER
| REVOKE_STRATEGY_MANAGER
| FORCE_REVOKE_MANAGER
| ACCOUNTANT_MANAGER
| QUEUE_MANAGER
| REPORTING_MANAGER
| DEBT_MANAGER
| MAX_DEBT_MANAGER
| DEPOSIT_LIMIT_MANAGER
| WITHDRAW_LIMIT_MANAGER
| MINIMUM_IDLE_MANAGER
| PROFIT_UNLOCK_MANAGER
| DEBT_PURCHASER
| EMERGENCY_MANAGER
| ALL.

Definition value (r : t) : Z :=
  match r with
  | ADD_STRATEGY_MANAGER => 1
  | REVOKE_STRATEGY_MANAGER => 2
  | FORCE_REVOKE_MANAGER => 4
  | ACCOUNTANT_MANAGER => 8
  | QUEUE_MANAGER => 16
  | REPORTING_MANAGER => 32
  | DEBT_MANAGER => 64
  | MAX_DEBT_MANAGER => 128
  | DEPOSIT_LIMIT_MANAGER => 256
  | WITHDRAW_LIMIT_MANAGER => 512
  | MINIMUM_IDLE_MANAGER => 1024
  | PROFIT_UNLOCK_MANAGER => 2048
  | DEBT_PURCHASER => 4096
  | EMERGENCY_MANAGER => 8192
  | ALL => 16383
  end.

(** The names bound in the class body, in the order of the source. *)
Definition members : list t :=
  [ADD_STRATEGY_MANAGER; REVOKE_STRATEGY_MANAGER; FORCE_REVOKE_MANAGER;
   ACCOUNTANT_MANAGER; QUEUE_MANAGER; REPORTING_MANAGER; DEBT_MANAGER;
   MAX_DEBT_MANAGER; DEPOSIT_LIMIT_MANAGER; WITHDRAW_LIMIT_MANAGER;
   MINIMUM_IDLE_MANAGER; PROFIT_UNLOCK_MANAGER; DEBT_PURCHASER;
   EMERGENCY_MANAGER; ALL].

Definition name (r : t) : string :=
  match r with
  | ADD_STRATEGY_MANAGER => "ADD_STRATEGY_MANAGER"
  | REVOKE_STRATEGY_MANAGER => "REVOKE_STRATEGY_MANAGER"
  | FORCE_REVOKE_MANAGER => "FORCE_REVOKE_MANAGER"
  | ACCOUNTANT_MANAGER => "ACCOUNTANT_MANAGER"
  | QUEUE_MANAGER => "QUEUE_MANAGER"
  | REPORTING_MANAGER => "REPORTING_MANAGER"
  | DEBT_MANAGER => "DEBT_MANAGER"
  | MAX_DEBT_MANAGER => "MAX_DEBT_MANAGER"
  | DEPOSIT_LIMIT_MANAGER => "DEPOSIT_LIMIT_MANAGER"
  | WITHDRAW_LIMIT_MANAGER => "WITHDRAW_LIMIT_MANAGER"
  | MINIMUM_IDLE_MANAGER => "MINIMUM_IDLE_MANAGER"
  | PROFIT_UNLOCK_MANAGER => "PROFIT_UNLOCK_MANAGER"
  | DEBT_PURCHASER => "DEBT_PURCHASER"
  | EMERGENCY_MANAGER => "EMERGENCY_MANAGER"
  | ALL => "ALL"
  end.

Definition statement : class_statement :=
  {| header_of := header;
     body_of := map (fun m => (name m, value m)) members |}.

Definition eqb (a b : t) : bool := value a =? value b.

(** The individually defined flags: every member but [ALL]. *)
Definition flags : list t := filter (fun r => negb (eqb r ALL)) members.

(** [a | b | ...] over a list of members. *)
Definition union (l : list t) : Z :=
  fold_left (fun acc r => Z.lor acc (value r)) l 0.

End ROLES.

Module StrategyChangeType.

Definition header : class_header :=
  {| class_name := "StrategyChangeType"; bases := ["IntFlag"%string] |}.

Inductive t := ADDED | REVOKED.

Definition value (c : t) : Z :=
  match c with
  | ADDED => 1
  | REVOKED => 2
  end.

Definition members : list t := [ADDED; REVOKED].

Definition name (c : t) : string :=
  match c with
  | ADDED => "ADDED"
  | REVOKED => "REVOKED"
  end.

Definition statement : class_statement :=
  {| header_of := header;
     body_of := map (fun m => (name m, value m)) members |}.

End StrategyChangeType.

Module RoleStatusChange.

Definition header : class_header :=
  {| class_name := "RoleStatusChange"; bases := ["IntFlag"%string] |}.

Inductive t := OPENED | CLOSED.

Definition value (c : t) : Z :=
  match c with
  | OPENED => 1
  | CLOSED => 2
  end.

Definition members : list t := [OPENED; CLOSED].

Definition name (c : t) : string :=
  match c with
  | OPENED => "OPENED"
  | CLOSED => "CLOSED"
  end.

Definition statement : class_statement :=
  {| header_of := header;
     body_of := map (fun m => (name m, value m)) members |}.

End RoleStatusChange.

Module ChangeType.

Definition header : class_header :=
  {| class_name := "ChangeType"; bases := ["IntFlag"%string] |}.

Inductive t := ADDED | REMOVED.

Definition value (c : t) : Z :=
  match c with
  | ADDED => 1
  | REMOVED => 2
  end.

Definition members : list t := [ADDED; REMOVED].

Definition name (c : t) : string :=
  match c with
  | ADDED => "ADDED"
  | REMOVED => "REMOVED"
  end.

Definition statement : class_statement :=
  {| header_of := header;
     body_of := map (fun m => (name m, value m)) members |}.

End ChangeType.


(** *** The classes as the module creates them

    Running a class statement creates a class object of its own and binds
    the name of the class to it; the bases are looked up by name when the
    statement runs. A class object is known by its place among the objects
    created. *)











Module AddressIds.
Section Hashed.

(** The hash behind [to_bytes32]; the specification does not name it. *)
Variable hash : string -> bytes.

(** Modelled from the spec: [to_bytes32] of [utils/helpers.py], which is
    imported by the constants module and is not among the sources. The
    specification describes the identifiers as fixed-size byte digests,
    the hash of the label string. *)
Definition to_bytes32 (label : string) : bytes := hash label.

Definition ROUTER : bytes := to_bytes32 "ROUTER".
Definition RELEASE_REGISTRY : bytes := to_bytes32 "RELEASE REGISTRY".
Definition REGISTRY_FACTORY : bytes := to_bytes32 "REGISTRY FACTORY".
Definition COMMON_REPORT_TRIGGER : bytes := to_bytes32 "COMMON REPORT TRIGGER".
Definition BASE_FEE_PROVIDER : bytes := to_bytes32 "BASE FEE PROVIDER".
Definition APR_ORACLE : bytes := to_bytes32 "APR ORACLE".

(** The attributes of the class, each with the label it is declared
    from. *)
Definition declared : list (string * bytes) :=
  [("ROUTER"%string, ROUTER);
   ("RELEASE REGISTRY"%string, RELEASE_REGISTRY);
   ("REGISTRY FACTORY"%string, REGISTRY_FACTORY);
   ("COMMON REPORT TRIGGER"%string, COMMON_REPORT_TRIGGER);
   ("BASE FEE PROVIDER"%string, BASE_FEE_PROVIDER);
   ("APR ORACLE"%string, APR_ORACLE)].

End Hashed.
End AddressIds.

End Constants.

(* ===================================================================== *)
(** * Properties *)
(* ===================================================================== *)

Import Bytes Py.

(** ** Bytes and hexadecimal text *)

Lemma Z_of_byte_range (b : byte) : 0 <= Z_of_byte b < 256.
Proof.
  unfold Z_of_byte. pose proof (Byte.to_N_bounded b) as H. lia.
Qed.

Lemma hex_value_hex_digit (d : Z) :
  0 <= d < 16 -> hex_value (hex_digit d) = Some d.
Proof.
  intros H.
  assert (C : d = 0 \/ d = 1 \/ d = 2 \/ d = 3 \/ d = 4 \/ d = 5 \/ d = 6
              \/ d = 7 \/ d = 8 \/ d = 9 \/ d = 10 \/ d = 11 \/ d = 12
              \/ d = 13 \/ d = 14 \/ d = 15) by lia.
  repeat (destruct C as [-> | C]; [reflexivity | ]). subst d. reflexivity.
Qed.

Lemma digits16_hex (l : bytes) : forall acc,
  digits16 (hex l) acc
  = Some (fold_left (fun a b => a * 256 + Z_of_byte b) l acc).
Proof.
  induction l as [| b l IH]; intros acc; [reflexivity | ].
  pose proof (Z_of_byte_range b) as R.
  cbn [hex digits16 fold_left].
  rewrite hex_value_hex_digit
    by (split; [apply Z.div_pos; lia | apply Z.div_lt_upper_bound; lia]).
  rewrite hex_value_hex_digit by (apply Z.mod_pos_bound; lia).
  rewrite IH. do 2 f_equal.
  pose proof (Z.div_mod (Z_of_byte b) 16 ltac:(lia)). lia.
Qed.

(** Reading back the hexadecimal text of a byte string gives its
    big-endian value. *)
Lemma int16_hex (l : bytes) : l <> [] -> int16 (hex l) = Some (be_value l).
Proof.
  intros H. unfold int16, be_value. rewrite <- digits16_hex.
  destruct l; [contradiction | reflexivity].
Qed.

Lemma fold_be_bounds (l : bytes) : forall acc,
  0 <= acc ->
  0 <= fold_left (fun a b => a * 256 + Z_of_byte b) l acc
    < (acc + 1) * 256 ^ Z.of_nat (List.length l).
Proof.
  induction l as [| b l IH]; intros acc Hacc.
  - cbn. lia.
  - pose proof (Z_of_byte_range b) as R.
    cbn [fold_left List.length]. rewrite Nat2Z.inj_succ, Z.pow_succ_r by lia.
    specialize (IH (acc * 256 + Z_of_byte b) ltac:(lia)).
    assert (0 < 256 ^ Z.of_nat (List.length l)) by (apply Z.pow_pos_nonneg; lia).
    nia.
Qed.

Lemma be_value_bounds (l : bytes) :
  0 <= be_value l < 256 ^ Z.of_nat (List.length l).
Proof.
  pose proof (fold_be_bounds l 0 ltac:(lia)) as H. unfold be_value. lia.
Qed.

Lemma be_bytes_length (n : nat) (z : Z) : List.length (be_bytes n z) = n.
Proof. induction n as [| n IH]; cbn [be_bytes List.length]; congruence. Qed.

(** ** SHA-256 *)

Example sha256_abc :
  SHA256.hexdigest (SHA256.update SHA256.new (encode_utf8 "abc"))
  = "ba7816bf8f01cfea414140de5dae2223b00361a396177a9cb410ff61f20015ad"%string.
Proof. vm_compute. reflexivity. Qed.

Example sha256_empty :
  SHA256.hexdigest SHA256.new
  = "e3b0c44298fc1c149afbf4c8996fb92427ae41e4649b934ca495991b7852b855"%string.
Proof. vm_compute. reflexivity. Qed.

Example sha256_two_blocks :
  SHA256.hexdigest (SHA256.update SHA256.new (repeat "a"%byte 70))
  = "6bd5e5034855a11241f0dee8fc72850ffd9955b28347a86428b5fa19119f6ad0"%string.
Proof. vm_compute. reflexivity. Qed.

Example sha256_56_bytes :
  SHA256.hexdigest
    (SHA256.update SHA256.new
       (encode_utf8 "abcdbcdecdefdefgefghfghighijhijkijkljklmklmnlmnomnopnopq"))
  = "248d6a61d20638b8e5c026930c3e6039a33ce45964ff2167f6ecedd419db06c1"%string.
Proof. vm_compute. reflexivity. Qed.

Example sha256_55_bytes :
  SHA256.hexdigest (SHA256.update SHA256.new (repeat "a"%byte 55))
  = "9f4390f8d30c2dd92ec9f095b65e2b9ae9b0a925a5258e241c9f1e910f734318"%string.
Proof. vm_compute. reflexivity. Qed.

Example sha256_64_bytes :
  SHA256.hexdigest (SHA256.update SHA256.new (repeat "a"%byte 64))
  = "ffe054fe7ae0cb6dc65c3af9b61d5209f439851db43d0ba5997337df154668eb"%string.
Proof. vm_compute. reflexivity. Qed.

(** Feeding a message in two pieces gives the digest of the whole. *)
Example sha256_update_twice :
  SHA256.hexdigest
    (SHA256.update (SHA256.update SHA256.new (encode_utf8 "address "))
       (encode_utf8 "provider"))
  = SHA256.hexdigest
      (SHA256.update SHA256.new (encode_utf8 "address provider")).
Proof. vm_compute. reflexivity. Qed.

(** A digest has thirty-two bytes, whatever was hashed. *)
Lemma digest_length (o : SHA256.hash_object) :
  List.length (SHA256.digest o) = 32%nat.
Proof.
  unfold SHA256.digest. repeat rewrite length_app.
  repeat rewrite be_bytes_length. reflexivity.
Qed.

(** The integer read from a hexadecimal digest exists and is below
    [2 ^ 256], for every message. *)
Lemma hexdigest_int_bounds (o : SHA256.hash_object) :
  int16 (SHA256.hexdigest o) = Some (be_value (SHA256.digest o))
  /\ 0 <= be_value (SHA256.digest o) < 2 ^ 256.
Proof.
  pose proof (digest_length o) as L. split.
  - unfold SHA256.hexdigest. apply int16_hex.
    intros E. rewrite E in L. discriminate.
  - pose proof (be_value_bounds (SHA256.digest o)) as B.
    rewrite L in B. change (256 ^ Z.of_nat 32) with (2 ^ 256) in B. exact B.
Qed.

(** ** The deployment script *)

Import Script.

Lemma Some_eq {A} (x y : A) : Some x = Some y -> x = y.
Proof. intros H. injection H as H. exact H. Qed.

Lemma Returned_eq {A} (x y : A) : Returned x = Returned y -> x = y.
Proof. intros H. injection H as H. exact H. Qed.

(** The salt of the script, evaluated. *)
Lemma salt_value :
  int16 (SHA256.hexdigest
           (SHA256.update SHA256.new (encode_utf8 "address provider")))
  = Some 13476920997752793447469330185897242238273528329391868269948580729240597053374.
Proof. vm_compute. reflexivity. Qed.

Section Steps.
Context {A B : Type} (k : A -> M B) (t : list event).

Lemma bind_call_returned (e : event) (a : A) :
  bind (call e (Returned a)) k t = k a (t ++ [e]).
Proof. reflexivity. Qed.

Lemma bind_call_raised (e : event) (x : exn) :
  bind (call e (Raised x)) k t = (t ++ [e], Raised x).
Proof. reflexivity. Qed.

Lemma bind_ret (a : A) : bind (ret a) k t = k a t.
Proof. reflexivity. Qed.

Lemma bind_raise (x : exn) : bind (raise x) k t = (t, Raised x).
Proof. reflexivity. Qed.

End Steps.

Lemma bind_print {B} (k : unit -> M B) (t : list event) (a : list printed) :
  bind (print a) k t = k tt (t ++ [Print a]).
Proof. reflexivity. Qed.

(** Runs the script symbolically: every answer of the surroundings is
    split into its two cases, one after the other. *)
Ltac step_run :=
  match goal with
  | |- context [bind (call ?e ?r) _ _] =>
      let E := fresh "E" in
      destruct r eqn:E;
      [rewrite bind_call_returned | rewrite bind_call_raised]
  | |- context [bind (print ?a) _ _] => rewrite bind_print
  | |- context [bind (true_divide ?n ?d) _ _] =>
      let E := fresh "E" in
      unfold true_divide at 1; destruct (Z.abs n <? float_limit) eqn:E;
      [rewrite bind_ret | rewrite bind_raise]
  | |- context [bind (or_raise (Some ?a) ?x) _ _] =>
      change (or_raise (Some a) x) with (@ret _ a); rewrite bind_ret
  | |- context [bind (or_raise ?o ?x) _ _] =>
      let E := fresh "E" in
      destruct o eqn:E; unfold or_raise at 1;
      [rewrite bind_ret | rewrite bind_raise]
  | |- context [if String.eqb ?a ?b then _ else _] =>
      let E := fresh "E" in
      destruct (String.eqb a b) eqn:E;
      [apply String.eqb_eq in E | apply String.eqb_neq in E]
  end.

Ltac run_script w d :=
  let t := fresh "t" in
  let r := fresh "r" in
  let R := fresh "R" in
  destruct (run (deploy_address_provider w d)) as [t r] eqn:R; revert R;
  unfold run, deploy_address_provider; cbv zeta; rewrite salt_value;
  unfold first, HexBytes.of_bytes;
  repeat step_run; unfold ret, print; cbn [app];
  intros R; apply pair_equal_spec in R; destruct R as [<- <-];
  cbn [fst snd].

(** Splits a membership in a list of events that is written out. *)
Ltac pick_event H :=
  cbn [In] in H;
  repeat (destruct H as [H | H]; try discriminate H);
  try contradiction.

(** The factory call, when the run contains one: what was answered before
    it and what it is called with. *)
Lemma deploy_request (w : World) (d : Account) f p s a :
  In (Deploy f p s a) (fst (run (deploy_address_provider w d))) ->
  exists answer address_provider Deployer constructor bytecode,
    input w prompt = Returned answer /\ answer <> "n"%string
    /\ project w "AddressProvider" = Returned address_provider
    /\ project w "Deployer" = Returned Deployer
    /\ at_ w Deployer factory_address = Returned f
    /\ encode_input w address_provider constructor_argument
       = Returned constructor
    /\ HexBytes.of_str (deployment_bytecode address_provider) = Some bytecode
    /\ p = bytecode ++ constructor /\ s = expected_salt /\ a = d.
Proof.
  run_script w d; intros H; pick_event H;
    injection H as <- <- <- <-; eauto 15.
Qed.

(** The demonstration run reaches the factory call. *)
Lemma demo_run_deploys :
  In (Deploy demo_factory demo_payload expected_salt demo_deployer)
     (fst (run (deploy_address_provider (demo_world "y") demo_deployer))).
Proof. vm_compute. repeat (first [left; reflexivity | right]). Qed.

(** C1. The salt handed to the factory is the SHA-256 digest of the UTF-8
    bytes of "address provider" read as a hexadecimal integer; it is the
    same integer in every run that reaches the factory call, and it is
    below 2^256. *)
Theorem salt_is_sha256_of_salt_string (w : World) (d : Account) f p s a :
  In (Deploy f p s a) (fst (run (deploy_address_provider w d))) ->
  int16 (SHA256.hexdigest
           (SHA256.update SHA256.new (encode_utf8 "address provider")))
  = Some s
  /\ s = be_value
           (SHA256.digest
              (SHA256.update SHA256.new (encode_utf8 "address provider")))
  /\ 0 <= s < 2 ^ 256
  /\ (forall w' d' f' p' s' a',
        In (Deploy f' p' s' a') (fst (run (deploy_address_provider w' d'))) ->
        s' = s).
Proof.
  intros H. apply deploy_request in H.
  destruct H as (? & ? & ? & ? & ? & _ & _ & _ & _ & _ & _ & _ & _ & -> & _).
  pose proof (hexdigest_int_bounds
                (SHA256.update SHA256.new (encode_utf8 "address provider")))
    as [E B].
  pose proof salt_value as V. fold expected_salt in V.
  rewrite V in E. apply Some_eq in E. rewrite <- E in B.
  split; [exact V | split; [exact E | split; [exact B | ]]].
  intros w' d' f' p' s' a' H'. apply deploy_request in H'.
  destruct H' as (? & ? & ? & ? & ? & _ & _ & _ & _ & _ & _ & _ & _ & -> & _).
  reflexivity.
Qed.

Lemma salt_is_sha256_of_salt_string_witness :
  In (Deploy demo_factory demo_payload expected_salt demo_deployer)
     (fst (run (deploy_address_provider (demo_world "y") demo_deployer)))
  /\ int16 (SHA256.hexdigest
              (SHA256.update SHA256.new (encode_utf8 "address provider")))
     = Some expected_salt
  /\ 0 <= expected_salt < 2 ^ 256.
Proof.
  pose proof (salt_is_sha256_of_salt_string (demo_world "y") demo_deployer
                demo_factory demo_payload expected_salt demo_deployer
                demo_run_deploys) as (E & _ & B & _).
  split; [exact demo_run_deploys | split; [exact E | exact B]].
Defined.

(** C2. The payload handed to the factory is the initialization bytecode
    of the AddressProvider contract followed by the encoded constructor
    arguments, and nothing else. *)
Theorem payload_is_bytecode_then_constructor (w : World) (d : Account) f p s a :
  In (Deploy f p s a) (fst (run (deploy_address_provider w d))) ->
  exists address_provider bytecode constructor,
    project w "AddressProvider" = Returned address_provider
    /\ HexBytes.of_str (deployment_bytecode address_provider) = Some bytecode
    /\ encode_input w address_provider constructor_argument
       = Returned constructor
    /\ p = bytecode ++ constructor
    /\ firstn (List.length bytecode) p = bytecode
    /\ skipn (List.length bytecode) p = constructor
    /\ List.length p = (List.length bytecode + List.length constructor)%nat.
Proof.
  intros H. apply deploy_request in H.
  destruct H as (? & ap & ? & ctor & bc & _ & _ & Ep & _ & _ & Ec & Eb & -> & _).
  exists ap, bc, ctor. repeat split; try assumption.
  - rewrite firstn_app, firstn_all, Nat.sub_diag. cbn. apply app_nil_r.
  - rewrite skipn_app, skipn_all, Nat.sub_diag. reflexivity.
  - apply length_app.
Qed.

Lemma payload_is_bytecode_then_constructor_witness :
  exists address_provider bytecode constructor,
    project (demo_world "y") "AddressProvider" = Returned address_provider
    /\ HexBytes.of_str (deployment_bytecode address_provider) = Some bytecode
    /\ encode_input (demo_world "y") address_provider constructor_argument
       = Returned constructor
    /\ demo_payload = bytecode ++ constructor
    /\ firstn (List.length bytecode) demo_payload = bytecode
    /\ skipn (List.length bytecode) demo_payload = constructor
    /\ List.length demo_payload
       = (List.length bytecode + List.length constructor)%nat.
Proof.
  exact (payload_is_bytecode_then_constructor (demo_world "y") demo_deployer
           demo_factory demo_payload expected_salt demo_deployer
           demo_run_deploys).
Defined.

(** Replaces, in [H], the requests whose answer is known by the answer. *)
Ltac use_answers H :=
  repeat match goal with
         | E : ?l = _ |- _ =>
             tryif constr_eq E H then fail else
             match type of H with
             | context [l] => rewrite E in H
             end
         end.

(** C7. When the factory call returns and the decoded list of Deployed
    logs is not empty, the script ends normally and the address it prints
    as deployed is the [addr] of the first log, and no other. *)
Theorem reported_address_is_first_log_addr
    (w : World) (d : Account) f p s a tx ev rest :
  In (Deploy f p s a) (fst (run (deploy_address_provider w d))) ->
  deploy w f p s a = Returned tx ->
  decode_logs w tx f "Deployed" = Returned (ev :: rest) ->
  snd (run (deploy_address_provider w d)) = Returned tt
  /\ In (Print [PStr ("Deployed the address provider to " ++ addr ev)])
        (fst (run (deploy_address_provider w d)))
  /\ (forall x,
        In (Print [PStr ("Deployed the address provider to " ++ x)])
           (fst (run (deploy_address_provider w d))) ->
        x = addr ev).
Proof.
  run_script w d.
  all: intros H Hd Hl; pick_event H; injection H as <- <- <- <-.
  all: use_answers Hd; try discriminate Hd; apply Returned_eq in Hd; subst tx.
  all: use_answers Hl; try discriminate Hl; apply Returned_eq in Hl; subst.
  all: match goal with
       | E : hd_error _ = _ |- _ => cbn [hd_error] in E
       end;
       try discriminate.
  match goal with
  | E : Some _ = Some _ |- _ => apply Some_eq in E; subst
  end.
  split; [reflexivity | split].
  - cbn [In]. do 14 right. left. reflexivity.
  - intros x Hx. unfold rule in Hx. cbn [String.append] in Hx.
    pick_event Hx. injection Hx as Hx. symmetry. exact Hx.
Qed.

(** A run that ends normally after the factory call. *)
Lemma demo_run_returns :
  deploy (demo_world "y") demo_factory demo_payload expected_salt demo_deployer
  = Returned {| txn_hash := "0xabc" |}
  /\ decode_logs (demo_world "y") {| txn_hash := "0xabc" |} demo_factory
       "Deployed"
     = Returned [demo_log].
Proof. split; reflexivity. Qed.

Lemma reported_address_is_first_log_addr_witness :
  In (Deploy demo_factory demo_payload expected_salt demo_deployer)
     (fst (run (deploy_address_provider (demo_world "y") demo_deployer)))
  /\ snd (run (deploy_address_provider (demo_world "y") demo_deployer))
     = Returned tt
  /\ In (Print [PStr ("Deployed the address provider to " ++ addr demo_log)])
        (fst (run (deploy_address_provider (demo_world "y") demo_deployer))).
Proof.
  pose proof (reported_address_is_first_log_addr (demo_world "y")
                demo_deployer demo_factory demo_payload expected_salt
                demo_deployer {| txn_hash := "0xabc" |} demo_log []
                demo_run_deploys (proj1 demo_run_returns)
                (proj2 demo_run_returns)) as (R & P & _).
  split; [exact demo_run_deploys | split; [exact R | exact P]].
Defined.

(** C9. An exception raised by the surroundings on a request of the script,
    the factory call among them, is the outcome of the run: nothing catches
    it. The failing request is the last event, so nothing is undone or
    tried again, and the factory is called once at most. *)
Theorem failures_propagate_uncaught (w : World) (d : Account) e x :
  In e (fst (run (deploy_address_provider w d))) ->
  raised_on w e = Some x ->
  snd (run (deploy_address_provider w d)) = Raised x
  /\ (exists t0, fst (run (deploy_address_provider w d)) = t0 ++ [e])
  /\ (submissions (fst (run (deploy_address_provider w d))) <= 1)%nat
  /\ (is_deploy e = true ->
      submissions (fst (run (deploy_address_provider w d))) = 1%nat).
Proof.
  run_script w d.
  all: intros H Hx; cbn [In] in H.
  all: repeat (destruct H as [H | H]; [subst e | ]); try contradiction.
  all: cbn [raised_on] in Hx; use_answers Hx; try discriminate Hx.
  all: apply Some_eq in Hx; subst x.
  all: split; [reflexivity | split; [ | split ]].
  all: try match goal with
           | |- exists t0, ?t = _ => exists (removelast t); reflexivity
           end.
  all: try intros D; unfold submissions; cbn [filter is_deploy List.length];
       first [lia | reflexivity | discriminate D].
Qed.

Lemma failures_propagate_uncaught_witness :
  raised_on (reverting_world demo_revert)
    (Deploy demo_factory demo_payload expected_salt demo_deployer)
  = Some demo_revert
  /\ snd (run (deploy_address_provider (reverting_world demo_revert)
                 demo_deployer))
     = Raised demo_revert
  /\ submissions
       (fst (run (deploy_address_provider (reverting_world demo_revert)
                    demo_deployer)))
     = 1%nat.
Proof.
  assert (I : In (Deploy demo_factory demo_payload expected_salt demo_deployer)
                 (fst (run (deploy_address_provider
                              (reverting_world demo_revert) demo_deployer)))).
  { vm_compute. repeat (first [left; reflexivity | right]). }
  pose proof (failures_propagate_uncaught (reverting_world demo_revert)
                demo_deployer _ demo_revert I eq_refl) as (R & _ & _ & S).
  split; [reflexivity | split; [exact R | exact (S eq_refl)]].
Defined.

(** Applies the answers that are known to the goal. *)
Ltac answer_goal :=
  repeat match goal with
         | E : ?l = _ |- context [?l] => rewrite E; cbv beta iota
         end.

(** Puts the answers of the chain and of the console, [Hc] and [Hi], in
    line with the ones met while running. *)
Ltac agree Hc Hi :=
  use_answers Hc; use_answers Hi;
  try discriminate Hc; try discriminate Hi;
  apply Returned_eq in Hc; apply Returned_eq in Hi; subst.

(** The factory is called exactly when the answer is not "n" and the
    requests made before the call are answered. *)
Lemma submitted_iff (w : World) (d : Account) id answer :
  chain_id w = Returned id ->
  input w prompt = Returned answer ->
  submitted (fst (run (deploy_address_provider w d))) = true
  <-> answer <> "n"%string /\ prepared w d = true.
Proof.
  run_script w d.
  all: intros Hc Hi; agree Hc Hi.
  all: unfold submitted, prepared; cbn [existsb is_deploy orb]; answer_goal.
  all: split; [intros S | intros [N P]]; try discriminate; try congruence.
  all: try (split; [assumption | reflexivity]).
  all: exfalso;
       repeat match type of P with
              | context [match ?x with _ => _ end] => destruct x
              end;
       discriminate P.
Qed.

(** C10, as the specification states it, fails: an answer other than "n"
    does not by itself lead to the factory call. Here the answer is "yes"
    and the node does not answer when the balance is read, so the run ends
    with that exception and the factory is not called. *)
Lemma answer_yes_without_submission :
  input offline_world prompt = Returned "yes"%string
  /\ snd (run (deploy_address_provider offline_world demo_deployer))
     = Raised offline
  /\ ~ (submitted
          (fst (run (deploy_address_provider offline_world demo_deployer)))
        = true
        <-> "yes"%string <> "n"%string).
Proof.
  split; [reflexivity | split; [vm_compute; reflexivity | ]].
  intros [_ H].
  assert (S : submitted
                (fst (run (deploy_address_provider offline_world
                             demo_deployer)))
              = false) by (vm_compute; reflexivity).
  rewrite S in H. specialize (H ltac:(discriminate)). discriminate H.
Qed.

(** C10, amended. The only decision of the script is the confirmation. On
    the answer "n" it returns at once: the run is the reading of the chain
    id, the banner and the question, and nothing more. On any other answer
    it goes on. The factory is called exactly when the answer is not "n"
    and every step before the call goes through; so, with those steps
    going through, it is called if and only if the answer is not "n". *)
Theorem confirmation_gate (w : World) (d : Account) id answer :
  chain_id w = Returned id ->
  input w prompt = Returned answer ->
  (answer = "n"%string ->
   run (deploy_address_provider w d)
   = ([ChainId;
       Print [PStr "Deploying Address Provider on ChainID"; PInt id];
       Input prompt],
      Returned tt))
  /\ (answer <> "n"%string ->
      In (ProjectGet "AddressProvider")
         (fst (run (deploy_address_provider w d))))
  /\ (prepared w d = true ->
      (submitted (fst (run (deploy_address_provider w d))) = true
       <-> answer <> "n"%string))
  /\ (submitted (fst (run (deploy_address_provider w d))) = true
      <-> answer <> "n"%string /\ prepared w d = true).
Proof.
  intros Hc Hi. pose proof (submitted_iff w d id answer Hc Hi) as S.
  split; [ | split; [ | split; [tauto | exact S]]];
    clear S; revert Hc Hi; run_script w d;
    intros Hc Hi; agree Hc Hi; intros N; try congruence;
    cbn [In]; repeat (first [left; reflexivity | right]).
Qed.

Lemma confirmation_gate_witness :
  submitted
    (fst (run (deploy_address_provider (demo_world "N") demo_deployer)))
  = true
  /\ run (deploy_address_provider (demo_world "n") demo_deployer)
     = ([ChainId;
         Print [PStr "Deploying Address Provider on ChainID"; PInt 1];
         Input prompt],
        Returned tt).
Proof.
  pose proof (confirmation_gate (demo_world "N") demo_deployer 1 "N"
                eq_refl eq_refl) as (_ & _ & G & _).
  pose proof (confirmation_gate (demo_world "n") demo_deployer 1 "n"
                eq_refl eq_refl) as (S & _).
  split.
  - apply (G eq_refl). discriminate.
  - apply S. reflexivity.
Defined.

(** C5, as the specification states it, fails: the digits of the factory
    address are not 43. *)
Lemma factory_address_has_not_43_digits :
  String.length (slice_from 2 factory_address) <> 43%nat.
Proof. vm_compute. discriminate. Qed.

(** C5, amended. The factory address of the script is well formed: the
    prefix 0x and forty hexadecimal digits, which denote twenty bytes. *)
Theorem factory_address_is_well_formed :
  HexBytes.has_0x_prefix factory_address = true
  /\ String.length (slice_from 2 factory_address) = 40%nat
  /\ exists b,
       HexBytes.of_str factory_address = Some b /\ List.length b = 20%nat.
Proof.
  split; [reflexivity | split; [reflexivity | ]].
  eexists. split; vm_compute; reflexivity.
Qed.

(** ** The constants *)

Import Constants.

Lemma flags_listed :
  ROLES.flags
  = [ROLES.ADD_STRATEGY_MANAGER; ROLES.REVOKE_STRATEGY_MANAGER;
     ROLES.FORCE_REVOKE_MANAGER; ROLES.ACCOUNTANT_MANAGER;
     ROLES.QUEUE_MANAGER; ROLES.REPORTING_MANAGER; ROLES.DEBT_MANAGER;
     ROLES.MAX_DEBT_MANAGER; ROLES.DEPOSIT_LIMIT_MANAGER;
     ROLES.WITHDRAW_LIMIT_MANAGER; ROLES.MINIMUM_IDLE_MANAGER;
     ROLES.PROFIT_UNLOCK_MANAGER; ROLES.DEBT_PURCHASER;
     ROLES.EMERGENCY_MANAGER].
Proof. reflexivity. Qed.

(** The flags are the members other than [ALL]. *)
Lemma in_flags (r : ROLES.t) : In r ROLES.flags <-> r <> ROLES.ALL.
Proof.
  rewrite flags_listed. split.
  - intros H E. subst r. cbn [In] in H.
    repeat (destruct H as [H | H]; [discriminate H | ]). exact H.
  - intros H. destruct r; cbn [In]; tauto.
Qed.

(** A bit position from 0 to 13, one case at a time. *)
Lemma bit_positions (k : Z) :
  0 <= k <= 13 ->
  k = 0 \/ k = 1 \/ k = 2 \/ k = 3 \/ k = 4 \/ k = 5 \/ k = 6 \/ k = 7
  \/ k = 8 \/ k = 9 \/ k = 10 \/ k = 11 \/ k = 12 \/ k = 13.
Proof. lia. Qed.

(** Finds the flag of a given value among the fourteen. *)
Ltac find_flag :=
  let candidate r :=
    (exists r; split; [apply in_flags; discriminate | reflexivity]) in
  first
    [ candidate ROLES.ADD_STRATEGY_MANAGER
    | candidate ROLES.REVOKE_STRATEGY_MANAGER
    | candidate ROLES.FORCE_REVOKE_MANAGER
    | candidate ROLES.ACCOUNTANT_MANAGER
    | candidate ROLES.QUEUE_MANAGER
    | candidate ROLES.REPORTING_MANAGER
    | candidate ROLES.DEBT_MANAGER
    | candidate ROLES.MAX_DEBT_MANAGER
    | candidate ROLES.DEPOSIT_LIMIT_MANAGER
    | candidate ROLES.WITHDRAW_LIMIT_MANAGER
    | candidate ROLES.MINIMUM_IDLE_MANAGER
    | candidate ROLES.PROFIT_UNLOCK_MANAGER
    | candidate ROLES.DEBT_PURCHASER
    | candidate ROLES.EMERGENCY_MANAGER ].

(** Every bit position from 0 to 13 is the value of a flag. *)
Lemma bit_has_flag (k : Z) :
  0 <= k <= 13 -> exists r, In r ROLES.flags /\ ROLES.value r = 2 ^ k.
Proof.
  intros H. apply bit_positions in H.
  repeat (destruct H as [-> | H]; [find_flag | ]). subst k. find_flag.
Qed.

Lemma flag_is_power (r : ROLES.t) :
  In r ROLES.flags -> exists k, 0 <= k <= 13 /\ ROLES.value r = 2 ^ k.
Proof.
  intros H. apply in_flags in H.
  destruct r;
    [exists 0 | exists 1 | exists 2 | exists 3 | exists 4 | exists 5
     | exists 6 | exists 7 | exists 8 | exists 9 | exists 10 | exists 11
     | exists 12 | exists 13 | contradiction];
    (split; [lia | reflexivity]).
Qed.

(** C3. [ROLES.ALL] is the bitwise OR of the fourteen individually
    defined flags, and every bit of [ROLES.ALL] is a bit of one of them. *)
Theorem ALL_is_union_of_flags :
  ROLES.flags
  = [ROLES.ADD_STRATEGY_MANAGER; ROLES.REVOKE_STRATEGY_MANAGER;
     ROLES.FORCE_REVOKE_MANAGER; ROLES.ACCOUNTANT_MANAGER;
     ROLES.QUEUE_MANAGER; ROLES.REPORTING_MANAGER; ROLES.DEBT_MANAGER;
     ROLES.MAX_DEBT_MANAGER; ROLES.DEPOSIT_LIMIT_MANAGER;
     ROLES.WITHDRAW_LIMIT_MANAGER; ROLES.MINIMUM_IDLE_MANAGER;
     ROLES.PROFIT_UNLOCK_MANAGER; ROLES.DEBT_PURCHASER;
     ROLES.EMERGENCY_MANAGER]
  /\ ROLES.value ROLES.ALL = ROLES.union ROLES.flags
  /\ (forall i,
        Z.testbit (ROLES.value ROLES.ALL) i = true ->
        exists r, In r ROLES.flags /\ Z.testbit (ROLES.value r) i = true)
  /\ (forall r i,
        In r ROLES.flags ->
        Z.testbit (ROLES.value r) i = true ->
        Z.testbit (ROLES.value ROLES.ALL) i = true).
Proof.
  split; [reflexivity | split; [reflexivity | split]].
  - intros i H.
    assert (R : 0 <= i <= 13).
    { destruct (Z.ltb_spec i 0) as [N | N].
      - rewrite Z.testbit_neg_r in H by exact N. discriminate H.
      - destruct (Z.leb_spec i 13) as [L | L]; [lia | ].
        rewrite Z.bits_above_log2 in H; [discriminate H | cbn; lia | ].
        change (Z.log2 (ROLES.value ROLES.ALL)) with 13. lia. }
    destruct (bit_has_flag i R) as (r & I & V). exists r.
    split; [exact I | ]. rewrite V. apply Z.pow2_bits_true. lia.
  - intros r i I H.
    destruct (flag_is_power r I) as (k & R & V). rewrite V in H.
    assert (i = k).
    { destruct (Z.eq_dec k i) as [E | E]; [congruence | ].
      rewrite Z.pow2_bits_false in H by exact E. discriminate H. }
    subst i. apply bit_positions in R.
    repeat (destruct R as [-> | R]; [reflexivity | ]). subst k. reflexivity.
Qed.

Lemma ALL_is_union_of_flags_witness :
  Z.testbit (ROLES.value ROLES.ALL) 6 = true
  /\ exists r, In r ROLES.flags /\ Z.testbit (ROLES.value r) 6 = true.
Proof.
  split; [reflexivity | ].
  exact (proj1 (proj2 (proj2 ALL_is_union_of_flags)) 6 eq_refl).
Defined.

(** C6. The members of [ROLES] other than [ALL] are fourteen; each is a
    power of two [2 ^ k] with [k] from 0 to 13; two different ones have
    different values and no bit in common; and each bit position from 0
    to 13 is the bit of exactly one of them. *)
Theorem role_flags_are_bits_0_to_13 :
  List.length ROLES.flags = 14%nat
  /\ (forall r, In r ROLES.flags <-> r <> ROLES.ALL)
  /\ (forall r,
        In r ROLES.flags -> exists k, 0 <= k <= 13 /\ ROLES.value r = 2 ^ k)
  /\ (forall r1 r2,
        In r1 ROLES.flags -> In r2 ROLES.flags -> r1 <> r2 ->
        ROLES.value r1 <> ROLES.value r2
        /\ Z.land (ROLES.value r1) (ROLES.value r2) = 0)
  /\ (forall k,
        0 <= k <= 13 ->
        exists r,
          In r ROLES.flags /\ ROLES.value r = 2 ^ k
          /\ forall r',
               In r' ROLES.flags ->
               Z.testbit (ROLES.value r') k = true -> r' = r).
Proof.
  split; [reflexivity | split; [exact in_flags | split; [exact flag_is_power | ]]].
  split.
  - intros r1 r2 I1 I2 N. apply in_flags in I1. apply in_flags in I2.
    destruct r1; try contradiction; destruct r2; try contradiction;
      split; solve [discriminate | reflexivity].
  - intros k R. destruct (bit_has_flag k R) as (r & I & V).
    exists r. split; [exact I | split; [exact V | ]].
    intros r' I' B. destruct (flag_is_power r' I') as (k' & R' & V').
    rewrite V' in B.
    assert (k' = k).
    { destruct (Z.eq_dec k' k) as [E | E]; [exact E | ].
      rewrite Z.pow2_bits_false in B by exact E. discriminate B. }
    subst k'. apply in_flags in I. apply in_flags in I'.
    rewrite <- V in V'. clear - I I' V'.
    destruct r; try contradiction; destruct r'; try contradiction;
      solve [reflexivity | discriminate V'].
Qed.

Lemma role_flags_are_bits_0_to_13_witness :
  In ROLES.DEBT_MANAGER ROLES.flags
  /\ (exists k, 0 <= k <= 13 /\ ROLES.value ROLES.DEBT_MANAGER = 2 ^ k)
  /\ Z.land (ROLES.value ROLES.DEBT_MANAGER)
            (ROLES.value ROLES.EMERGENCY_MANAGER) = 0.
Proof.
  pose proof role_flags_are_bits_0_to_13 as (_ & M & P & D & _).
  assert (I1 : In ROLES.DEBT_MANAGER ROLES.flags)
    by (apply M; discriminate).
  assert (I2 : In ROLES.EMERGENCY_MANAGER ROLES.flags)
    by (apply M; discriminate).
  split; [exact I1 | split; [exact (P _ I1) | ]].
  apply (D _ _ I1 I2). discriminate.
Defined.



(* ===================================================================== *)
(** * Further properties *)
(* ===================================================================== *)

(** ** The run of the script *)

(** X1. When the factory call returns and no Deployed log is decoded, the
    script raises IndexError: the transaction has been submitted, reading
    the logs is the last thing done, and no address is printed. *)
Theorem no_log_raises_index_error (w : World) (d : Account) f p s a tx :
  In (Deploy f p s a) (fst (run (deploy_address_provider w d))) ->
  deploy w f p s a = Returned tx ->
  decode_logs w tx f "Deployed" = Returned [] ->
  snd (run (deploy_address_provider w d))
  = Raised (IndexError "list index out of range")
  /\ (exists t0,
        fst (run (deploy_address_provider w d))
        = t0 ++ [DecodeLogs tx f "Deployed"])
  /\ submissions (fst (run (deploy_address_provider w d))) = 1%nat
  /\ (forall x,
        ~ In (Print [PStr ("Deployed the address provider to " ++ x)])
             (fst (run (deploy_address_provider w d)))).
Proof.
  run_script w d.
  all: intros H Hd Hl; pick_event H; injection H as <- <- <- <-.
  all: use_answers Hd; try discriminate Hd; apply Returned_eq in Hd; subst tx.
  all: use_answers Hl; try discriminate Hl; apply Returned_eq in Hl; subst.
  all: match goal with
       | E : hd_error _ = _ |- _ => cbn [hd_error] in E
       end;
       try discriminate.
  split; [reflexivity | split; [ | split]].
  - match goal with
    | |- exists t0, ?t = _ => exists (removelast t); reflexivity
    end.
  - reflexivity.
  - intros x Hx. unfold rule in Hx. cbn [String.append] in Hx.
    pick_event Hx.
Qed.

Lemma no_log_raises_index_error_witness :
  In (Deploy demo_factory demo_payload expected_salt demo_deployer)
     (fst (run (deploy_address_provider silent_world demo_deployer)))
  /\ snd (run (deploy_address_provider silent_world demo_deployer))
     = Raised (IndexError "list index out of range").
Proof.
  assert (I : In (Deploy demo_factory demo_payload expected_salt demo_deployer)
                 (fst (run (deploy_address_provider silent_world
                              demo_deployer)))).
  { vm_compute. repeat (first [left; reflexivity | right]). }
  pose proof (no_log_raises_index_error silent_world demo_deployer _ _ _ _
                {| txn_hash := "0xabc" |} I eq_refl eq_refl) as (R & _).
  split; [exact I | exact R].
Defined.

(** X2. In every run each request to the surroundings is made once at
    most; the factory in particular is never called twice. *)
Theorem requests_are_made_once (w : World) (d : Account) :
  NoDup (filter is_request (fst (run (deploy_address_provider w d))))
  /\ (submissions (fst (run (deploy_address_provider w d))) <= 1)%nat.
Proof.
  run_script w d.
  all: split;
       [ cbn [filter is_request]
       | unfold submissions; cbn [filter is_deploy List.length]; lia ].
  all: repeat (constructor;
               [cbn [In]; intros H;
                repeat (destruct H as [H | H]; [discriminate H | ]);
                exact H | ]).
  all: constructor.
Qed.

(** X3. The factory call goes to the contract that [project.Deployer.at]
    gives for the fixed factory address, and is sent by the loaded
    account. *)
Theorem factory_call_target_and_sender (w : World) (d : Account) f p s a :
  In (Deploy f p s a) (fst (run (deploy_address_provider w d))) ->
  a = d
  /\ exists Deployer,
       project w "Deployer" = Returned Deployer
       /\ at_ w Deployer factory_address = Returned f.
Proof.
  intros H. apply deploy_request in H.
  destruct H as (? & ? & dep & ? & ? & _ & _ & _ & Ed & Ef & _ & _ & _ & _ & ->).
  split; [reflexivity | exists dep; split; assumption].
Qed.

Lemma factory_call_target_and_sender_witness :
  In (Deploy demo_factory demo_payload expected_salt demo_deployer)
     (fst (run (deploy_address_provider (demo_world "y") demo_deployer)))
  /\ exists Deployer,
       project (demo_world "y") "Deployer" = Returned Deployer
       /\ at_ (demo_world "y") Deployer factory_address
          = Returned demo_factory.
Proof.
  split; [exact demo_run_deploys | ].
  exact (proj2 (factory_call_target_and_sender (demo_world "y") demo_deployer
                  demo_factory demo_payload expected_salt demo_deployer
                  demo_run_deploys)).
Defined.

(** X4. Before it calls the factory the script has printed the salt it
    then submits and has read the balance of the sender; the events up to
    the call hold no other factory call. *)
Theorem salt_is_printed_before_the_call (w : World) (d : Account) f p s a :
  In (Deploy f p s a) (fst (run (deploy_address_provider w d))) ->
  exists before after,
    fst (run (deploy_address_provider w d))
    = before ++ Deploy f p s a :: after
    /\ In (Print [PStr ("Salt we are using " ++ str s)]) before
    /\ In (Balance a) before
    /\ submitted before = false.
Proof.
  run_script w d.
  all: intros H; pick_event H; injection H as <- <- <- <-.
  all: match goal with
       | |- exists before after, ?t = _ /\ _ =>
           exists (firstn 11 t), (skipn 12 t)
       end;
       cbn [firstn skipn app].
  all: split; [reflexivity | split; [ | split; [ | reflexivity]]];
       cbn [In]; repeat (first [left; reflexivity | right]).
Qed.

Lemma salt_is_printed_before_the_call_witness :
  exists before after,
    fst (run (deploy_address_provider (demo_world "y") demo_deployer))
    = before ++ Deploy demo_factory demo_payload expected_salt demo_deployer
                  :: after
    /\ In (Print [PStr ("Salt we are using " ++ str expected_salt)]) before
    /\ In (Balance demo_deployer) before
    /\ submitted before = false.
Proof.
  exact (salt_is_printed_before_the_call (demo_world "y") demo_deployer
           demo_factory demo_payload expected_salt demo_deployer
           demo_run_deploys).
Defined.

(** X5. A run that went ahead and returned normally has called the
    factory, got a receipt with a Deployed log, and printed the address of
    the first such log in a run of seventeen events. *)
Theorem normal_return_means_deployed (w : World) (d : Account) answer :
  input w prompt = Returned answer ->
  answer <> "n"%string ->
  snd (run (deploy_address_provider w d)) = Returned tt ->
  exists f p s tx ev rest,
    In (Deploy f p s d) (fst (run (deploy_address_provider w d)))
    /\ deploy w f p s d = Returned tx
    /\ decode_logs w tx f "Deployed" = Returned (ev :: rest)
    /\ In (Print [PStr ("Deployed the address provider to " ++ addr ev)])
          (fst (run (deploy_address_provider w d)))
    /\ List.length (fst (run (deploy_address_provider w d))) = 17%nat.
Proof.
  run_script w d.
  all: intros Hi N R; try discriminate R.
  - use_answers Hi. apply Returned_eq in Hi. congruence.
  - match goal with
    | E : hd_error ?l = Some _ |- _ =>
        destruct l as [| ev rest]; cbn [hd_error] in E;
        [discriminate E | apply Some_eq in E; subst]
    end.
    do 6 eexists.
    split; [cbn [In]; do 11 right; left; reflexivity | ].
    split; [eassumption | split; [eassumption | split; [ | reflexivity]]].
    cbn [In]. do 14 right. left. reflexivity.
Qed.

Lemma normal_return_means_deployed_witness :
  exists f p s tx ev rest,
    In (Deploy f p s demo_deployer)
       (fst (run (deploy_address_provider (demo_world "yes") demo_deployer)))
    /\ deploy (demo_world "yes") f p s demo_deployer = Returned tx
    /\ decode_logs (demo_world "yes") tx f "Deployed" = Returned (ev :: rest)
    /\ In (Print [PStr ("Deployed the address provider to " ++ addr ev)])
          (fst (run (deploy_address_provider (demo_world "yes")
                       demo_deployer)))
    /\ List.length
         (fst (run (deploy_address_provider (demo_world "yes")
                      demo_deployer)))
       = 17%nat.
Proof.
  apply (normal_return_means_deployed (demo_world "yes") demo_deployer "yes").
  - reflexivity.
  - discriminate.
  - vm_compute. reflexivity.
Defined.

(** The exception of [HexBytes] on some texts that it does not read. *)
Example error_on_a_letter :
  HexBytes.error "0x60zz" = Exn "binascii.Error" "Non-hexadecimal digit found".
Proof. reflexivity. Qed.

Example error_outside_ascii :
  HexBytes.error (String (ascii_of_nat 233) "a")
  = Exn "UnicodeEncodeError"
      "'ascii' codec can't encode character '\xe9' in position 0: ordinal not in range(128)"
  /\ HexBytes.error
       (String "a" (String (ascii_of_nat 233) (String (ascii_of_nat 233) "b")))
     = Exn "UnicodeEncodeError"
         "'ascii' codec can't encode characters in position 1-2: ordinal not in range(128)".
Proof. split; vm_compute; reflexivity. Qed.



(** ** Hexadecimal text read back *)











(** ** Combining role flags *)

(** A bit of a union is a bit of one of the members combined. *)
Lemma testbit_union_from (l : list ROLES.t) : forall acc i,
  Z.testbit (fold_left (fun a r => Z.lor a (ROLES.value r)) l acc) i
  = Z.testbit acc i || existsb (fun r => Z.testbit (ROLES.value r) i) l.
Proof.
  induction l as [| r l IH]; intros acc i; cbn [fold_left existsb].
  - symmetry. apply orb_false_r.
  - rewrite IH, Z.lor_spec. symmetry. apply orb_assoc.
Qed.

Lemma testbit_union (l : list ROLES.t) (i : Z) :
  Z.testbit (ROLES.union l) i
  = existsb (fun r => Z.testbit (ROLES.value r) i) l.
Proof.
  unfold ROLES.union. rewrite testbit_union_from, Z.bits_0. reflexivity.
Qed.

Lemma union_nonneg (l : list ROLES.t) : 0 <= ROLES.union l.
Proof.
  assert (G : forall acc, 0 <= acc ->
                0 <= fold_left (fun a r => Z.lor a (ROLES.value r)) l acc).
  { induction l as [| r l IH]; intros a Ha; cbn [fold_left]; [exact Ha | ].
    apply IH. apply Z.lor_nonneg. split; [exact Ha | destruct r; cbn; lia]. }
  apply G. lia.
Qed.

(** Every bit of a member is a bit of [ALL]. *)
Lemma member_within_ALL (r : ROLES.t) (i : Z) :
  Z.testbit (ROLES.value r) i = true ->
  Z.testbit (ROLES.value ROLES.ALL) i = true.
Proof.
  intros H.
  assert (E : Z.land (ROLES.value r) (ROLES.value ROLES.ALL) = ROLES.value r)
    by (destruct r; reflexivity).
  rewrite <- E, Z.land_spec in H. apply andb_true_iff in H. apply H.
Qed.

Lemma union_within_ALL (l : list ROLES.t) :
  Z.land (ROLES.union l) (ROLES.value ROLES.ALL) = ROLES.union l.
Proof.
  apply Z.bits_inj'. intros i _. rewrite Z.land_spec.
  destruct (Z.testbit (ROLES.union l) i) eqn:B; [ | reflexivity].
  rewrite testbit_union in B. apply existsb_exists in B.
  destruct B as (r & _ & B). rewrite (member_within_ALL r i B). reflexivity.
Qed.

(** Two flags with a bit in common are the same flag. *)
Lemma flag_bit_unique (r r' : ROLES.t) (k : Z) :
  In r ROLES.flags -> In r' ROLES.flags ->
  ROLES.value r = 2 ^ k -> 0 <= k ->
  Z.testbit (ROLES.value r') k = true -> r' = r.
Proof.
  intros I I' V K B. destruct (flag_is_power r' I') as (k' & R' & V').
  rewrite V' in B.
  assert (k' = k).
  { destruct (Z.eq_dec k' k) as [E | E]; [exact E | ].
    rewrite Z.pow2_bits_false in B by exact E. discriminate B. }
  subst k'. apply in_flags in I. apply in_flags in I'.
  rewrite <- V in V'. clear - I I' V'.
  destruct r; try contradiction; destruct r'; try contradiction;
    solve [reflexivity | discriminate V'].
Qed.

(** Among flags, a union holds the bits of [r] exactly when [r] was
    combined into it; otherwise it holds none of them. *)
Lemma flag_in_union (l : list ROLES.t) (r : ROLES.t) :
  (forall x, In x l -> In x ROLES.flags) ->
  In r ROLES.flags ->
  (In r l -> Z.land (ROLES.union l) (ROLES.value r) = ROLES.value r)
  /\ (~ In r l -> Z.land (ROLES.union l) (ROLES.value r) = 0).
Proof.
  intros L I. destruct (flag_is_power r I) as (k & R & V).
  assert (B : Z.testbit (ROLES.union l) k = true <-> In r l).
  { rewrite testbit_union, existsb_exists. split.
    - intros (x & Ix & Bx).
      rewrite (flag_bit_unique r x k I (L x Ix) V (proj1 R) Bx) in Ix.
      exact Ix.
    - intros Ir. exists r. split; [exact Ir | ].
      rewrite V. apply Z.pow2_bits_true. lia. }
  split; intros H; apply Z.bits_inj'; intros i Hi;
    rewrite Z.land_spec, V, Z.pow2_bits_eqb by lia.
  - destruct (Z.eqb_spec k i) as [<- | N]; [ | apply andb_false_r].
    apply B in H. rewrite H. reflexivity.
  - rewrite Z.bits_0.
    destruct (Z.eqb_spec k i) as [<- | N]; [ | apply andb_false_r].
    destruct (Z.testbit (ROLES.union l) k) eqn:T; [ | reflexivity].
    exfalso. apply H, B. reflexivity.
Qed.

(** X9. Every combination of [ROLES] members lies between 0 and [ALL],
    has no bit outside [ALL], and is absorbed by [ALL]. *)
Theorem combined_roles_within_ALL (l : list ROLES.t) :
  0 <= ROLES.union l <= ROLES.value ROLES.ALL
  /\ Z.land (ROLES.union l) (ROLES.value ROLES.ALL) = ROLES.union l
  /\ Z.lor (ROLES.union l) (ROLES.value ROLES.ALL) = ROLES.value ROLES.ALL.
Proof.
  pose proof (union_nonneg l) as N. pose proof (union_within_ALL l) as W.
  split; [split; [exact N | ] | split; [exact W | ]].
  - change (ROLES.value ROLES.ALL) with (Z.ones 14) in W.
    rewrite Z.land_ones in W by lia.
    pose proof (Z.mod_pos_bound (ROLES.union l) (2 ^ 14) ltac:(lia)) as M.
    rewrite W in M. cbn [ROLES.value]. lia.
  - apply Z.bits_inj'. intros i _. rewrite Z.lor_spec.
    destruct (Z.testbit (ROLES.union l) i) eqn:B; [ | reflexivity].
    rewrite <- W, Z.land_spec in B. apply andb_true_iff in B.
    rewrite (proj2 B). reflexivity.
Qed.

(** X10. For a combination of flags, the test [perms & r == r] tells
    whether the flag [r] was combined in; when it was not, [perms & r] is
    0. *)
Theorem role_test_finds_combined_flags (l : list ROLES.t) (r : ROLES.t) :
  (forall x, In x l -> In x ROLES.flags) ->
  In r ROLES.flags ->
  (Z.land (ROLES.union l) (ROLES.value r) = ROLES.value r <-> In r l)
  /\ (~ In r l -> Z.land (ROLES.union l) (ROLES.value r) = 0).
Proof.
  intros L I. destruct (flag_in_union l r L I) as [Y N].
  split; [split; [ | exact Y] | exact N].
  intros E. destruct (in_dec (fun a b : ROLES.t => ltac:(decide equality)) r l)
    as [H | H]; [exact H | ].
  rewrite (N H) in E. destruct (flag_is_power r I) as (k & R & V).
  rewrite V in E. pose proof (Z.pow_pos_nonneg 2 k). lia.
Qed.

Lemma role_test_finds_combined_flags_witness :
  (Z.land (ROLES.union [ROLES.DEBT_MANAGER; ROLES.QUEUE_MANAGER])
          (ROLES.value ROLES.QUEUE_MANAGER)
   = ROLES.value ROLES.QUEUE_MANAGER
   <-> In ROLES.QUEUE_MANAGER [ROLES.DEBT_MANAGER; ROLES.QUEUE_MANAGER])
  /\ Z.land (ROLES.union [ROLES.DEBT_MANAGER; ROLES.QUEUE_MANAGER])
            (ROLES.value ROLES.EMERGENCY_MANAGER)
     = 0.
Proof.
  assert (L : forall x,
             In x [ROLES.DEBT_MANAGER; ROLES.QUEUE_MANAGER] ->
             In x ROLES.flags).
  { intros x [<- | [<- | []]]; apply in_flags; discriminate. }
  split.
  - apply (role_test_finds_combined_flags _ ROLES.QUEUE_MANAGER L).
    apply in_flags. discriminate.
  - apply (role_test_finds_combined_flags _ ROLES.EMERGENCY_MANAGER L).
    + apply in_flags. discriminate.
    + intros [H | [H | []]]; discriminate H.
Defined.

(** X11. Combining is by set: the union of two lists joined is the OR of
    their unions, and two lists with the same members have the same
    union, whatever the order and the repetitions. *)
Theorem union_is_by_set (l1 l2 : list ROLES.t) :
  ROLES.union (l1 ++ l2) = Z.lor (ROLES.union l1) (ROLES.union l2)
  /\ ((forall r, In r l1 <-> In r l2) -> ROLES.union l1 = ROLES.union l2).
Proof.
  split.
  - apply Z.bits_inj'. intros i _.
    rewrite Z.lor_spec, !testbit_union. apply existsb_app.
  - intros S. apply Z.bits_inj'. intros i _. rewrite !testbit_union.
    apply eq_true_iff_eq. rewrite !existsb_exists.
    split; intros (r & I & B); exists r; (split; [apply S, I | exact B]).
Qed.

Lemma union_is_by_set_witness :
  ROLES.union [ROLES.DEBT_MANAGER; ROLES.QUEUE_MANAGER; ROLES.DEBT_MANAGER]
  = ROLES.union [ROLES.QUEUE_MANAGER; ROLES.DEBT_MANAGER].
Proof.
  apply (union_is_by_set
           [ROLES.DEBT_MANAGER; ROLES.QUEUE_MANAGER; ROLES.DEBT_MANAGER]
           [ROLES.QUEUE_MANAGER; ROLES.DEBT_MANAGER]).
  intros r. cbn [In]. tauto.
Defined.

(** X12. A combination of flags tells which flags were combined: two
    lists of flags with the same union have the same members. *)
Theorem union_of_flags_is_lossless (l1 l2 : list ROLES.t) :
  (forall x, In x l1 -> In x ROLES.flags) ->
  (forall x, In x l2 -> In x ROLES.flags) ->
  ROLES.union l1 = ROLES.union l2 ->
  forall r, In r l1 <-> In r l2.
Proof.
  assert (G : forall l l',
             (forall x, In x l -> In x ROLES.flags) ->
             (forall x, In x l' -> In x ROLES.flags) ->
             ROLES.union l = ROLES.union l' ->
             forall r, In r l -> In r l').
  { intros l l' L L' E r I.
    destruct (flag_in_union l r L (L r I)) as [Y _].
    destruct (flag_in_union l' r L' (L r I)) as [_ N].
    destruct (in_dec (fun a b : ROLES.t => ltac:(decide equality)) r l')
      as [H | H]; [exact H | exfalso].
    specialize (Y I). specialize (N H). rewrite E, N in Y.
    destruct (flag_is_power r (L r I)) as (k & R & V).
    rewrite V in Y. pose proof (Z.pow_pos_nonneg 2 k). lia. }
  intros L1 L2 E r. split; [apply G | apply G]; auto.
Qed.

Lemma union_of_flags_is_lossless_witness :
  In ROLES.QUEUE_MANAGER [ROLES.DEBT_MANAGER; ROLES.QUEUE_MANAGER]
  <-> In ROLES.QUEUE_MANAGER [ROLES.QUEUE_MANAGER; ROLES.DEBT_MANAGER].
Proof.
  apply (union_of_flags_is_lossless
           [ROLES.DEBT_MANAGER; ROLES.QUEUE_MANAGER]
           [ROLES.QUEUE_MANAGER; ROLES.DEBT_MANAGER]).
  - intros x [<- | [<- | []]]; apply in_flags; discriminate.
  - intros x [<- | [<- | []]]; apply in_flags; discriminate.
  - reflexivity.
Defined.
